(** * osirisgate/golang-core: status-code registry and structured errors

    A shallow embedding of [enum/status_code.go], [enum/status.go] and of the
    [CoreException] type of package [exception] with its variants, with the
    properties of the registry (lookup, validation, defensive copy) and of
    the error value (message resolution, detail bag, the log view and the
    API view).

    Conventions of the embedding.
    - Go's [int] and [StatusCode] are modelled by [Z]; the code performs no
      arithmetic on them, so no wrap-around is ever involved.
    - A Go map is a reference to a mutable object.  The registry
      [statusDescriptions] is a package-level map that [GetStatusTexts]
      copies, so package [status] is modelled over an explicit store of map
      objects: the registry lives at a fixed location, [make] allocates a
      fresh one, and assignments and deletions update the object in place.
    - [for k, v := range m] visits the entries of [m] in an order the runtime
      chooses.  Loops are folds over the list of entries, and the results are
      shown not to depend on the order of that list. *)

From Stdlib Require Import ZArith.
From stdpp Require Import gmap strings list fin_maps.

Set Warnings "-register-all".
Open Scope Z_scope.
Open Scope string_scope.

(** ** Iterating over a Go map *)

(** The loop [for key, value := range src { dst[key] = value }], run over the
    entries of [src] in the order [entries]. *)
Definition range_assign `{Countable K} {V : Type}
    (entries : list (K * V)) (dst : gmap K V) : gmap K V :=
  foldl (λ acc kv, <[kv.1 := kv.2]> acc) dst entries.

(** ** Package [status] *)

Module status.

(** [enum/status.go]: the two-value status flag. *)
Definition SUCCESS : string := "success".
Definition ERROR : string := "error".

(** [type StatusCode int], and the constants the error variants use. *)
Abbreviation StatusCode := Z (only parsing).

Definition BadRequest : StatusCode := 400.
Definition NotFound : StatusCode := 404.
Definition UnprocessableContent : StatusCode := 422.
Definition InternalServerError : StatusCode := 500.

(** The map literal that initialises [statusDescriptions]. *)
Definition statusDescriptions_literal : list (Z * string) :=
  [ (100, "Continue");
    (101, "Switching Protocols");
    (102, "Processing");
    (103, "Early Hints");
    (200, "OK");
    (201, "Created");
    (202, "Accepted");
    (203, "Non-Authoritative Information");
    (204, "No Content");
    (205, "Reset Content");
    (206, "Partial Content");
    (207, "Multi-Status");
    (208, "Already Reported");
    (226, "IM Used");
    (300, "Multiple Choices");
    (301, "Moved Permanently");
    (302, "Found");
    (303, "See Other");
    (304, "Not Modified");
    (305, "Use Proxy");
    (307, "Temporary Redirect");
    (308, "Permanent Redirect");
    (400, "Bad Request");
    (401, "Unauthorized");
    (402, "Payment Required");
    (403, "Forbidden");
    (404, "Not Found");
    (405, "Method Not Allowed");
    (406, "Not Acceptable");
    (407, "Proxy Authentication Required");
    (408, "Request Timeout");
    (409, "Conflict");
    (410, "Gone");
    (411, "Length Required");
    (412, "Precondition Failed");
    (413, "Content Too Large");
    (414, "URI Too Long");
    (415, "Unsupported Media Type");
    (416, "Range Not Satisfiable");
    (417, "Expectation Failed");
    (418, "I'm a teapot");
    (421, "Misdirected Request");
    (422, "Unprocessable Content");
    (423, "Locked");
    (424, "Failed Dependency");
    (425, "Too Early");
    (426, "Upgrade Required");
    (428, "Precondition Required");
    (429, "Too Many Requests");
    (431, "Request Header Fields Too Large");
    (451, "Unavailable For Legal Reasons");
    (500, "Internal Server Error");
    (501, "Not Implemented");
    (502, "Bad Gateway");
    (503, "Service Unavailable");
    (504, "Gateway Timeout");
    (505, "HTTP Version Not Supported");
    (506, "Variant Also Negotiates");
    (507, "Insufficient Storage");
    (508, "Loop Detected");
    (510, "Not Extended");
    (511, "Network Authentication Required") ].

(** The contents of [statusDescriptions] once the package is initialised. *)
Definition statusDescriptions : gmap Z string :=
  list_to_map statusDescriptions_literal.

(** *** The store of map objects *)

Abbreviation loc := nat (only parsing).
Abbreviation store := (gmap nat (gmap Z string)) (only parsing).

(** The object the package variable [statusDescriptions] refers to. *)
Definition statusDescriptions_loc : loc := 0%nat.

(** The store when package initialisation has run. *)
Definition init : store := {[ statusDescriptions_loc := statusDescriptions ]}.

(** The contents of the map object at [l]. *)
Definition deref (σ : store) (l : loc) : gmap Z string := default ∅ (σ !! l).

(** [m[k] = v] and [delete(m, k)] on the map object at [l]. *)
Definition map_assign (l : loc) (k : Z) (v : string) (σ : store) : store :=
  alter (λ m, <[k := v]> m) l σ.
Definition map_delete (l : loc) (k : Z) (σ : store) : store :=
  alter (λ m, delete k m) l σ.

(** [make(map[StatusCode]string, n)]: a new, empty map object. *)
Definition make_map (σ : store) : loc * store :=
  let l := fresh (dom σ) in (l, <[l := ∅]> σ).

(** *** The functions of [enum/status_code.go] *)

Definition GetValue (c : StatusCode) : Z := c.

Definition GetDescription (σ : store) (c : StatusCode) : string :=
  match deref σ statusDescriptions_loc !! c with
  | Some desc => desc
  | None => "Unknown Status Code"
  end.

Definition NewStatusCode (σ : store) (value : Z) : StatusCode * bool :=
  let s := value in
  match deref σ statusDescriptions_loc !! s with
  | Some _ => (s, true)
  | None => (0, false)
  end.

(** [GetStatusTexts], with the loop over [statusDescriptions] run in the
    order [entries]. *)
Definition GetStatusTexts_ranging (entries : list (Z * string)) (σ : store)
  : loc * store :=
  let '(copyMap, σ1) := make_map σ in
  (copyMap, foldl (λ s kv, map_assign copyMap kv.1 kv.2 s) σ1 entries).

Definition GetStatusTexts (σ : store) : loc * store :=
  GetStatusTexts_ranging (map_to_list (deref σ statusDescriptions_loc)) σ.

(** *** Clients of the package

    [statusDescriptions] is unexported and no function returns it, so the
    only map references code outside the package holds are the ones
    [GetStatusTexts] handed out.  A client is a sequence of calls to
    [GetStatusTexts] and of updates of the maps it was given. *)

Inductive mutation :=
| Assign (k : Z) (v : string)   (* m[k] = v *)
| Delete (k : Z)                (* delete(m, k) *)
| Clear.                        (* clear(m) *)

Definition mutate (l : loc) (mu : mutation) (σ : store) : store :=
  match mu with
  | Assign k v => map_assign l k v σ
  | Delete k => map_delete l k σ
  | Clear => alter (λ _, ∅) l σ
  end.

Definition mutate_all (l : loc) (mus : list mutation) (σ : store) : store :=
  foldl (λ s mu, mutate l mu s) σ mus.

Inductive client_op :=
| CallGetStatusTexts             (* m_n := status.GetStatusTexts() *)
| Mutate (i : nat) (mu : mutation). (* update the i-th map obtained so far *)

Record client := Client { heap : store; held : list loc }.

Definition exec (c : client) (op : client_op) : client :=
  match op with
  | CallGetStatusTexts =>
      let '(l, σ) := GetStatusTexts (heap c) in
      {| heap := σ; held := held c ++ [l] |}
  | Mutate i mu =>
      match held c !! i with
      | Some l => {| heap := mutate l mu (heap c); held := held c |}
      | None => c
      end
  end.

(** The state a client program leaves the process in. *)
Definition run (ops : list client_op) : client :=
  foldl exec {| heap := init; held := [] |} ops.

(** What the clients cannot break: the registry object still holds the
    table it was initialised with, and no client holds a reference to it. *)
Definition registry_intact (c : client) : Prop :=
  heap c !! statusDescriptions_loc = Some statusDescriptions ∧
  Forall (λ l, l ≠ statusDescriptions_loc) (held c).

(** [enum/status.go]: [type Status string], its accessor [GetValue] (named
    [Status_GetValue] here, [GetValue] being the accessor of [StatusCode])
    and its constructor. *)
Definition Status_GetValue (s : string) : string := s.

Definition NewStatus (value : string) : string := value.

(** The [const] blocks of [enum/status_code.go]: every named [StatusCode]
    with its value, in the order of the declarations. *)
Definition StatusCode_constants : list (string * Z) :=
  [ ("Continue", 100); ("SwitchingProtocols", 101); ("Processing", 102);
    ("EarlyHints", 103); ("OK", 200); ("Created", 201); ("Accepted", 202);
    ("NonAuthoritativeInformation", 203); ("NoContent", 204);
    ("ResetContent", 205); ("PartialContent", 206); ("MultiStatusCode", 207);
    ("AlreadyReported", 208); ("IMUsed", 226); ("MultipleChoices", 300);
    ("MovedPermanently", 301); ("Found", 302); ("SeeOther", 303);
    ("NotModified", 304); ("UseProxy", 305); ("TemporaryRedirect", 307);
    ("PermanentRedirect", 308); ("BadRequest", 400); ("Unauthorized", 401);
    ("PaymentRequired", 402); ("Forbidden", 403); ("NotFound", 404);
    ("MethodNotAllowed", 405); ("NotAcceptable", 406);
    ("ProxyAuthenticationRequired", 407); ("RequestTimeout", 408);
    ("Conflict", 409); ("Gone", 410); ("LengthRequired", 411);
    ("PreconditionFailed", 412); ("ContentTooLarge", 413);
    ("URITooLong", 414); ("UnsupportedMediaType", 415);
    ("RangeNotSatisfiable", 416); ("ExpectationFailed", 417);
    ("IMATeapot", 418); ("MisdirectedRequest", 421);
    ("UnprocessableContent", 422); ("Locked", 423); ("FailedDependency", 424);
    ("TooEarly", 425); ("UpgradeRequired", 426);
    ("PreconditionRequired", 428); ("TooManyRequests", 429);
    ("RequestHeaderFieldsTooLarge", 431); ("UnavailableForLegalReasons", 451);
    ("InternalServerError", 500); ("NotImplemented", 501);
    ("BadGateway", 502); ("ServiceUnavailable", 503); ("GatewayTimeout", 504);
    ("HTTPVersionNotSupported", 505); ("VariantAlsoNegotiates", 506);
    ("InsufficientStorage", 507); ("LoopDetected", 508); ("NotExtended", 510);
    ("NetworkAuthenticationRequired", 511) ].

(** The number of calls of [GetStatusTexts] in a client program. *)
Fixpoint calls (ops : list client_op) : nat :=
  match ops with
  | [] => 0%nat
  | CallGetStatusTexts :: ops => S (calls ops)
  | Mutate _ _ :: ops => calls ops
  end.

End status.

(** ** Package [exception] *)

Module exception.

(** The dynamic values an [interface{}] holds in a detail bag: the nil
    interface, booleans, integers, strings, [[]interface{}] slices and nested
    [map[string]interface{}] maps.  A map is [None] when it is the nil map.
    The package inspects a value only through the assertions [.(string)] and
    [.(map[string]interface{})], which succeed on [VString] and [VMap] alone;
    a value of any other dynamic type is treated as [VBool] and [VInt] are. *)
Inductive value : Type :=
| VNil
| VBool (b : bool)
| VInt (n : Z)
| VString (s : string)
| VSlice (l : list value)
| VMap (m : option (gmap string value)).

(** [map[string]interface{}] *)
Abbreviation bag := (option (gmap string value)) (only parsing).

(** The entries of a map; the nil map has none. *)
Definition entries_of (m : bag) : gmap string value := default ∅ m.

(** [m[k]]: the zero value of [interface{}] when [k] is absent or [m] is nil. *)
Definition index (m : bag) (k : string) : value :=
  default VNil (entries_of m !! k).

(** [delete(m, k)]: no effect on the nil map. *)
Definition bag_delete (m : bag) (k : string) : bag := delete k <$> m.

(** The comma-ok type assertions [v.(string)] and
    [v.(map[string]interface{})]. *)
Definition assert_string (v : value) : string * bool :=
  match v with
  | VString s => (s, true)
  | _ => ("", false)
  end.

Definition assert_map (v : value) : bag * bool :=
  match v with
  | VMap m => (m, true)
  | _ => (None, false)
  end.

(** Outcome of code that may panic. *)
Inductive result (A : Type) : Type :=
| Ok (a : A)
| Panic (reason : string).
Arguments Ok {A} a.
Arguments Panic {A} reason.

Definition bind {A B : Type} (r : result A) (f : A → result B) : result B :=
  match r with
  | Ok a => f a
  | Panic reason => Panic reason
  end.

(** [m[k] = v]: panics on the nil map. *)
Definition bag_assign (m : bag) (k : string) (v : value) : result bag :=
  match m with
  | Some entries => Ok (Some (<[k := v]> entries))
  | None => Panic "assignment to entry in nil map"
  end.

Record CoreException := {
  Message : string;
  StatusCode : status.StatusCode;
  Errors : bag;
  StackTrace : string
}.

(** [NewInstance]; [stack] is what [string(debug.Stack())] returns at the
    call, and [σ] the store [GetDescription] reads the registry from.  The
    map [errors] is the caller's own object: the deletion is done in place
    and the exception keeps that same map. *)
Definition NewInstance (σ : status.store) (errors : bag)
    (defaultStatusCode : status.StatusCode) (stack : string) : CoreException :=
  let '(message, ok) := assert_string (index errors "message") in
  if negb ok || String.eqb message "" then
    {| Message := status.GetDescription σ defaultStatusCode;
       StatusCode := defaultStatusCode;
       Errors := errors;
       StackTrace := stack |}
  else
    {| Message := message;
       StatusCode := defaultStatusCode;
       Errors := bag_delete errors "message";
       StackTrace := stack |}.

Definition Error (e : CoreException) : string := Message e.

Definition GetStatusCode (e : CoreException) : Z :=
  status.GetValue (StatusCode e).

Definition GetErrors (e : CoreException) : bag := Errors e.

Definition GetDetails (e : CoreException) : bag :=
  let '(details, ok) := assert_map (index (Errors e) "details") in
  if ok then details else Some ∅.

Definition GetDetailsMessage (e : CoreException) : string :=
  let details := GetDetails e in
  let '(msg, ok) := assert_string (index details "error") in
  if ok then msg else "".

Definition GetErrorsForLog (e : CoreException) : gmap string value :=
  list_to_map
    [ ("message", VString (Message e));
      ("status_code", VInt (status.GetValue (StatusCode e)));
      ("errors", VMap (Errors e));
      ("stack_trace", VString (StackTrace e)) ].

Definition GetStackTrace (e : CoreException) : string := StackTrace e.

(** The map literal [Format] starts from. *)
Definition fixed_fields (e : CoreException) : gmap string value :=
  list_to_map
    [ ("status", VString status.ERROR);
      ("error_code", VInt (status.GetValue (StatusCode e)));
      ("message", VString (Message e)) ].

(** [Format], with the loop over [e.Errors] run in the order [entries]. *)
Definition Format_ranging (entries : list (string * value))
    (e : CoreException) : result bag :=
  let formatted : bag := Some (fixed_fields e) in
  match Errors e with
  | Some _ =>
      foldl (λ acc kv, bind acc (λ formatted, bag_assign formatted kv.1 kv.2))
            (Ok formatted) entries
  | None => Ok formatted
  end.

Definition Format (e : CoreException) : result bag :=
  Format_ranging (map_to_list (entries_of (Errors e))) e.

(** [bad_function_call.go]: a variant is [NewInstance] at a fixed default
    code; the struct embedding gives it the methods of [CoreException]. *)
Record BadFunctionCall := { BadFunctionCall_base : CoreException }.

Definition NewBadFunctionCall (σ : status.store) (errors : bag)
    (stack : string) : BadFunctionCall :=
  let base := NewInstance σ errors status.BadRequest stack in
  {| BadFunctionCall_base := base |}.

(** The other variants: each file declares a struct embedding
    [CoreException] and a constructor that calls [NewInstance] with the
    default code of the variant. *)

Record Length := { Length_base : CoreException }.

Definition NewLength (σ : status.store) (errors : bag) (stack : string) : Length :=
  let base := NewInstance σ errors status.BadRequest stack in
  {| Length_base := base |}.

Record Logic := { Logic_base : CoreException }.

Definition NewLogic (σ : status.store) (errors : bag) (stack : string) : Logic :=
  let base := NewInstance σ errors status.BadRequest stack in
  {| Logic_base := base |}.

Record Domain := { Domain_base : CoreException }.

Definition NewDomain (σ : status.store) (errors : bag) (stack : string) : Domain :=
  let base := NewInstance σ errors status.BadRequest stack in
  {| Domain_base := base |}.

Record UnexpectedValue := { UnexpectedValue_base : CoreException }.

Definition NewUnexpectedValue (σ : status.store) (errors : bag) (stack : string) : UnexpectedValue :=
  let base := NewInstance σ errors status.UnprocessableContent stack in
  {| UnexpectedValue_base := base |}.

Record OutOfRange := { OutOfRange_base : CoreException }.

Definition NewOutOfRange (σ : status.store) (errors : bag) (stack : string) : OutOfRange :=
  let base := NewInstance σ errors status.BadRequest stack in
  {| OutOfRange_base := base |}.

Record RequestParseBody := { RequestParseBody_base : CoreException }.

Definition NewRequestParseBody (σ : status.store) (errors : bag) (stack : string) : RequestParseBody :=
  let base := NewInstance σ errors status.BadRequest stack in
  {| RequestParseBody_base := base |}.

Record Overflow := { Overflow_base : CoreException }.

Definition NewOverflow (σ : status.store) (errors : bag) (stack : string) : Overflow :=
  let base := NewInstance σ errors status.UnprocessableContent stack in
  {| Overflow_base := base |}.

Record Runtime := { Runtime_base : CoreException }.

Definition NewRuntime (σ : status.store) (errors : bag) (stack : string) : Runtime :=
  let base := NewInstance σ errors status.InternalServerError stack in
  {| Runtime_base := base |}.

Record InvalidArgument := { InvalidArgument_base : CoreException }.

Definition NewInvalidArgument (σ : status.store) (errors : bag) (stack : string) : InvalidArgument :=
  let base := NewInstance σ errors status.BadRequest stack in
  {| InvalidArgument_base := base |}.

Record BadMethodCall := { BadMethodCall_base : CoreException }.

Definition NewBadMethodCall (σ : status.store) (errors : bag) (stack : string) : BadMethodCall :=
  let base := NewInstance σ errors status.BadRequest stack in
  {| BadMethodCall_base := base |}.

Record Underflow := { Underflow_base : CoreException }.

Definition NewUnderflow (σ : status.store) (errors : bag) (stack : string) : Underflow :=
  let base := NewInstance σ errors status.InternalServerError stack in
  {| Underflow_base := base |}.

Record Range := { Range_base : CoreException }.

Definition NewRange (σ : status.store) (errors : bag) (stack : string) : Range :=
  let base := NewInstance σ errors status.UnprocessableContent stack in
  {| Range_base := base |}.

Record OutOfBounds := { OutOfBounds_base : CoreException }.

Definition NewOutOfBounds (σ : status.store) (errors : bag) (stack : string) : OutOfBounds :=
  let base := NewInstance σ errors status.UnprocessableContent stack in
  {| OutOfBounds_base := base |}.

(** [type Error struct]; the method [Error] has taken the name. *)
Record GenericError := { GenericError_base : CoreException }.

Definition NewError (σ : status.store) (errors : bag) (stack : string) : GenericError :=
  let base := NewInstance σ errors status.InternalServerError stack in
  {| GenericError_base := base |}.

(** Every variant constructor, by name, followed by the projection to the
    embedded [CoreException] (the receiver of the promoted methods). *)
Definition variant_constructors
  : list (string * (status.store → bag → string → CoreException)) :=
  [ ("NewBadFunctionCall", λ σ errors stack, BadFunctionCall_base (NewBadFunctionCall σ errors stack));
    ("NewLength", λ σ errors stack, Length_base (NewLength σ errors stack));
    ("NewLogic", λ σ errors stack, Logic_base (NewLogic σ errors stack));
    ("NewDomain", λ σ errors stack, Domain_base (NewDomain σ errors stack));
    ("NewUnexpectedValue", λ σ errors stack, UnexpectedValue_base (NewUnexpectedValue σ errors stack));
    ("NewOutOfRange", λ σ errors stack, OutOfRange_base (NewOutOfRange σ errors stack));
    ("NewRequestParseBody", λ σ errors stack, RequestParseBody_base (NewRequestParseBody σ errors stack));
    ("NewOverflow", λ σ errors stack, Overflow_base (NewOverflow σ errors stack));
    ("NewRuntime", λ σ errors stack, Runtime_base (NewRuntime σ errors stack));
    ("NewInvalidArgument", λ σ errors stack, InvalidArgument_base (NewInvalidArgument σ errors stack));
    ("NewBadMethodCall", λ σ errors stack, BadMethodCall_base (NewBadMethodCall σ errors stack));
    ("NewUnderflow", λ σ errors stack, Underflow_base (NewUnderflow σ errors stack));
    ("NewRange", λ σ errors stack, Range_base (NewRange σ errors stack));
    ("NewOutOfBounds", λ σ errors stack, OutOfBounds_base (NewOutOfBounds σ errors stack));
    ("NewError", λ σ errors stack, GenericError_base (NewError σ errors stack)) ].

End exception.

(** * Properties *)

(** ** Range loops do not depend on the iteration order *)

Section range_loops.
Context `{Countable K} {V : Type}.
Implicit Types (src dst : gmap K V) (entries : list (K * V)).

Lemma range_assign_lookup entries dst (k : K) :
  NoDup entries.*1 →
  range_assign entries dst !! k =
    match (list_to_map entries : gmap K V) !! k with
    | Some v => Some v
    | None => dst !! k
    end.
Proof.
  unfold range_assign. revert dst.
  induction entries as [|[k0 v0] rest IH]; intros dst Hnd; simpl.
  - by rewrite lookup_empty.
  - rewrite fmap_cons in Hnd. apply NoDup_cons in Hnd as [Hk0 Hrest].
    rewrite IH by done.
    destruct (decide (k0 = k)) as [->|Hne].
    + rewrite (not_elem_of_list_to_map_1 rest k) by done.
      by rewrite !lookup_insert_eq.
    + rewrite !lookup_insert_ne by done.
      by destruct (list_to_map rest !! k).
Qed.

(** Whatever order the runtime picks, the loop leaves [src ∪ dst] in the
    destination: the entries of [src] win over those already there. *)
Lemma range_assign_union src dst entries :
  entries ≡ₚ map_to_list src →
  range_assign entries dst = src ∪ dst.
Proof.
  intros Hperm. apply map_eq; intros k.
  assert (NoDup entries.*1) as Hnd.
  { rewrite Hperm. apply NoDup_fst_map_to_list. }
  rewrite range_assign_lookup by done.
  rewrite (list_to_map_proper entries (map_to_list src)) by done.
  rewrite list_to_map_to_list, lookup_union.
  by destruct (src !! k), (dst !! k).
Qed.

End range_loops.

(** ** The registry *)

Section registry.
Import status.

(** Every entry of the registry comes from the literal. *)
Lemma statusDescriptions_literal_elem (c : Z) (desc : string) :
  statusDescriptions !! c = Some desc → (c, desc) ∈ statusDescriptions_literal.
Proof. apply elem_of_list_to_map_2. Qed.

(** The literal has 62 entries with pairwise different codes, all in the
    classes 1xx to 5xx; no description is empty or is the text returned for
    unknown codes. *)
Lemma statusDescriptions_literal_codes :
  NoDup statusDescriptions_literal.*1 ∧ length statusDescriptions_literal = 62%nat.
Proof.
  split; [|reflexivity].
  apply (bool_decide_unpack (NoDup statusDescriptions_literal.*1)).
  by vm_compute.
Qed.

Lemma statusDescriptions_literal_wf :
  Forall (λ kv : Z * string,
            (100 ≤ kv.1 ≤ 511)%Z ∧ kv.2 ≠ "" ∧ kv.2 ≠ "Unknown Status Code")
         statusDescriptions_literal.
Proof.
  unfold statusDescriptions_literal.
  repeat (apply Forall_cons; split; [simpl; repeat split; (lia || discriminate)|]).
  apply Forall_nil_2.
Qed.

Lemma statusDescriptions_wf (c : Z) (desc : string) :
  statusDescriptions !! c = Some desc →
  (100 ≤ c ≤ 511)%Z ∧ desc ≠ "" ∧ desc ≠ "Unknown Status Code".
Proof.
  intros Hin%statusDescriptions_literal_elem.
  by apply (proj1 (Forall_forall _ _) statusDescriptions_literal_wf (c, desc)).
Qed.

Lemma statusDescriptions_zero : statusDescriptions !! 0 = None.
Proof.
  destruct (statusDescriptions !! 0) as [desc|] eqn:Hz; [|done].
  apply statusDescriptions_wf in Hz. lia.
Qed.

End registry.

(** ** The store: copies and client updates *)

Section store.
Import status.
Implicit Types (σ : gmap nat (gmap Z string)) (l : nat).

Lemma deref_insert_eq σ l (m : gmap Z string) : deref (<[l := m]> σ) l = m.
Proof. unfold deref. by rewrite lookup_insert_eq. Qed.

Lemma deref_insert_ne σ l l' (m : gmap Z string) :
  l ≠ l' → deref (<[l := m]> σ) l' = deref σ l'.
Proof. intros. unfold deref. by rewrite lookup_insert_ne. Qed.

Lemma lookup_mutate_ne σ l l' (mu : mutation) :
  l ≠ l' → mutate l mu σ !! l' = σ !! l'.
Proof.
  intros. destruct mu; unfold mutate, map_assign, map_delete;
    by rewrite lookup_alter_ne.
Qed.

Lemma dom_mutate σ l (mu : mutation) : dom (mutate l mu σ) = dom σ.
Proof.
  destruct mu; unfold mutate, map_assign, map_delete; apply dom_alter_L.
Qed.

Lemma lookup_mutate_all_ne σ l l' (mus : list mutation) :
  l ≠ l' → mutate_all l mus σ !! l' = σ !! l'.
Proof.
  intros Hne. unfold mutate_all. revert σ.
  induction mus as [|mu mus IH]; intros σ; simpl; [done|].
  by rewrite IH, lookup_mutate_ne.
Qed.

Lemma dom_mutate_all σ l (mus : list mutation) :
  dom (mutate_all l mus σ) = dom σ.
Proof.
  unfold mutate_all. revert σ.
  induction mus as [|mu mus IH]; intros σ; simpl; [done|].
  by rewrite IH, dom_mutate.
Qed.

(** The copy loop fills the new object with what the loop assigns. *)
Lemma foldl_map_assign σ l (m : gmap Z string) (entries : list (Z * string)) :
  foldl (λ s kv, map_assign l kv.1 kv.2 s) (<[l := m]> σ) entries
  = <[l := range_assign entries m]> σ.
Proof.
  revert m. induction entries as [|[k v] rest IH]; intros m; simpl; [done|].
  unfold map_assign at 2. rewrite alter_insert_eq. apply IH.
Qed.

(** In whatever order the registry is traversed, [GetStatusTexts] returns a
    new object holding the entries of the registry. *)
Lemma GetStatusTexts_ranging_copy σ (entries : list (Z * string)) :
  entries ≡ₚ map_to_list (deref σ statusDescriptions_loc) →
  GetStatusTexts_ranging entries σ
  = (fresh (dom σ), <[fresh (dom σ) := deref σ statusDescriptions_loc]> σ).
Proof.
  intros Hperm. unfold GetStatusTexts_ranging, make_map.
  rewrite foldl_map_assign, (range_assign_union _ _ _ Hperm).
  by rewrite (right_id_L ∅ (∪)).
Qed.

Lemma GetStatusTexts_copy σ :
  GetStatusTexts σ
  = (fresh (dom σ), <[fresh (dom σ) := deref σ statusDescriptions_loc]> σ).
Proof. by apply GetStatusTexts_ranging_copy. Qed.

Lemma fresh_not_allocated σ l : is_Some (σ !! l) → fresh (dom σ) ≠ l.
Proof.
  intros Hl%elem_of_dom Heq. apply (is_fresh (dom σ)). by rewrite Heq.
Qed.

(** No step of a client touches the registry. *)
Lemma exec_registry_intact (c : client) (op : client_op) :
  registry_intact c → registry_intact (exec c op).
Proof.
  intros [Hreg Hheld]. destruct op as [|i mu]; unfold exec.
  - rewrite GetStatusTexts_copy. split; cbn [heap held].
    + rewrite lookup_insert_ne; [done|]. by apply fresh_not_allocated.
    + apply Forall_app; split; [done|].
      apply Forall_singleton. by apply fresh_not_allocated.
  - destruct (held c !! i) as [l|] eqn:Hi; [|done].
    split; cbn [heap held]; [|done].
    rewrite lookup_mutate_ne; [done|].
    by apply (proj1 (Forall_lookup _ _) Hheld i).
Qed.

Lemma run_registry_intact (ops : list client_op) : registry_intact (run ops).
Proof.
  unfold run.
  assert (registry_intact {| heap := init; held := [] |}) as Hinit.
  { split; [reflexivity | apply Forall_nil_2]. }
  revert Hinit. generalize {| heap := init; held := [] |}.
  induction ops as [|op ops IH]; intros c Hc; simpl; [done|].
  by apply IH, exec_registry_intact.
Qed.

Lemma run_registry (ops : list client_op) :
  deref (heap (run ops)) statusDescriptions_loc = statusDescriptions.
Proof. unfold deref. by rewrite (proj1 (run_registry_intact ops)). Qed.

End store.

(** ** Lookup, validation and the defensive copy *)

Section status_functions.
Import status.

(** C7. [NewStatusCode]: in every state a client program can bring the
    process to, and for every integer [value], the result is [(value, true)]
    when [value] is a code of the registry and [(0, false)] when it is not;
    the flag is [true] exactly for the registered codes, the registered codes
    are the keys of the map literal, and [0] is not one of them. *)
Theorem NewStatusCode_registered (ops : list client_op) (value : Z) :
  let σ := heap (run ops) in
  NewStatusCode σ value
    = (if decide (value ∈ dom statusDescriptions)
       then (value, true) else (0, false))
  ∧ ((NewStatusCode σ value).2 = true ↔ value ∈ dom statusDescriptions)
  ∧ dom statusDescriptions = list_to_set statusDescriptions_literal.*1
  ∧ 0 ∉ dom statusDescriptions.
Proof.
  intros σ.
  assert (NewStatusCode σ value
          = (if decide (value ∈ dom statusDescriptions)
             then (value, true) else (0, false))) as Heq.
  { unfold NewStatusCode, σ. rewrite run_registry.
    destruct (statusDescriptions !! value) as [desc|] eqn:Hv.
    - rewrite decide_True; [done|]. apply elem_of_dom; eauto.
    - rewrite decide_False; [done|]. by apply not_elem_of_dom. }
  split; [done|]. split; [|split].
  - rewrite Heq.
    destruct (decide (value ∈ dom statusDescriptions)) as [Hin|Hnin]; cbn [snd].
    + split; intros _; [exact Hin | reflexivity].
    + split; [discriminate | intros Hin; destruct (Hnin Hin)].
  - apply dom_list_to_map_L.
  - apply not_elem_of_dom, statusDescriptions_zero.
Qed.

(** C8. [GetDescription]: in every state a client program can bring the
    process to, and for every integer code, the result is the description the
    registry holds for the code, and ["Unknown Status Code"] when the code is
    not registered (999, for one); no registered description is that text. *)
Theorem GetDescription_registered_or_unknown (ops : list client_op) (c : Z) :
  let σ := heap (run ops) in
  GetDescription σ c
    = match statusDescriptions !! c with
      | Some desc => desc
      | None => "Unknown Status Code"
      end
  ∧ GetDescription σ 999 = "Unknown Status Code"
  ∧ map_Forall (λ _ desc, desc ≠ "Unknown Status Code") statusDescriptions.
Proof.
  intros σ. unfold GetDescription, σ. rewrite run_registry.
  split; [done|]. split; [reflexivity|].
  intros code desc Hcode. by apply (statusDescriptions_wf code desc).
Qed.

(** C9. [GetStatusTexts]: called in any state a client program can bring the
    process to, it returns a new map object, different from the registry and
    from every object allocated before, whose contents equal the registry's.
    Whatever sequence of assignments, deletions and clears is then applied to
    that object, the registry keeps its initial contents, a further call
    returns yet another object with those contents, and [GetDescription] and
    [NewStatusCode] answer as they did before. *)
Theorem GetStatusTexts_independent_copy
    (ops : list client_op) (mus : list mutation) :
  let σ := heap (run ops) in
  let copyMap := (GetStatusTexts σ).1 in
  let σ1 := (GetStatusTexts σ).2 in
  let σ2 := mutate_all copyMap mus σ1 in
  deref σ statusDescriptions_loc = statusDescriptions
  ∧ deref σ1 copyMap = statusDescriptions
  ∧ copyMap ≠ statusDescriptions_loc
  ∧ (copyMap ∉ dom σ)
  ∧ deref σ2 statusDescriptions_loc = statusDescriptions
  ∧ deref ((GetStatusTexts σ2).2) ((GetStatusTexts σ2).1) = statusDescriptions
  ∧ (GetStatusTexts σ2).1 ≠ copyMap
  ∧ (∀ c, GetDescription σ2 c = GetDescription σ c)
  ∧ (∀ value, NewStatusCode σ2 value = NewStatusCode σ value).
Proof.
  intros σ copyMap σ1 σ2.
  pose proof (run_registry ops) as Hreg. fold σ in Hreg.
  assert (is_Some (σ !! statusDescriptions_loc)) as Halloc.
  { unfold σ. rewrite (proj1 (run_registry_intact ops)). eauto. }
  assert (copyMap = fresh (dom σ)) as Hcopy.
  { unfold copyMap. by rewrite GetStatusTexts_copy. }
  assert (σ1 = <[copyMap := deref σ statusDescriptions_loc]> σ) as Hσ1.
  { unfold σ1. by rewrite GetStatusTexts_copy, Hcopy. }
  assert (copyMap ≠ statusDescriptions_loc) as Hne.
  { rewrite Hcopy. by apply fresh_not_allocated. }
  assert (deref σ2 statusDescriptions_loc = statusDescriptions) as Hreg2.
  { unfold deref, σ2. rewrite lookup_mutate_all_ne by done.
    rewrite Hσ1, lookup_insert_ne by done. apply Hreg. }
  split; [done|]. split.
  { by rewrite Hσ1, deref_insert_eq. }
  split; [done|]. split.
  { rewrite Hcopy. apply is_fresh. }
  split; [done|]. split.
  { rewrite GetStatusTexts_copy; simpl. by rewrite deref_insert_eq. }
  split.
  { rewrite GetStatusTexts_copy; simpl. apply fresh_not_allocated.
    apply elem_of_dom. unfold σ2. rewrite dom_mutate_all, Hσ1, dom_insert_L.
    set_solver. }
  split; intros x.
  - unfold GetDescription. by rewrite Hreg2, Hreg.
  - unfold NewStatusCode. by rewrite Hreg2, Hreg.
Qed.

(** The checks of [TestGetStatusTexts], [TestNewStatusCode] and
    [TestGetDescription], run from the initial store. *)
Example TestGetStatusTexts :
  let '(statusTexts, σ1) := GetStatusTexts init in
  let σ2 := map_assign statusTexts 200 "Not OK" σ1 in
  let '(originalStatusTexts, σ3) := GetStatusTexts σ2 in
  size (deref σ1 statusTexts) = 62%nat
  ∧ deref σ1 statusTexts !! 200 = Some "OK"
  ∧ deref σ3 statusTexts !! 200 = Some "Not OK"
  ∧ deref σ3 originalStatusTexts !! 200 = Some "OK".
Proof. vm_compute. done. Qed.

Example TestNewStatusCode :
  NewStatusCode init 200 = (200, true)
  ∧ NewStatusCode init 404 = (NotFound, true)
  ∧ NewStatusCode init 999 = (0, false)
  ∧ NewStatusCode init 500 = (InternalServerError, true).
Proof. vm_compute. done. Qed.

Example TestGetDescription :
  GetDescription init 200 = "OK"
  ∧ GetDescription init NotFound = "Not Found"
  ∧ GetDescription init 418 = "I'm a teapot"
  ∧ GetDescription init 999 = "Unknown Status Code".
Proof. vm_compute. done. Qed.

End status_functions.

(** ** Construction of a [CoreException] *)

Section construction.
Import exception.
Implicit Types (σ : gmap nat (gmap Z string)) (errors : option (gmap string value)).

(** The two branches of [NewInstance]. *)
Lemma NewInstance_custom σ errors (code : Z) (stack message : string) :
  index errors "message" = VString message → message ≠ "" →
  NewInstance σ errors code stack
  = {| Message := message; StatusCode := code;
       Errors := bag_delete errors "message"; StackTrace := stack |}.
Proof.
  intros Hidx Hne. unfold NewInstance. rewrite Hidx. cbn [assert_string negb orb].
  by rewrite (proj2 (String.eqb_neq message "") Hne).
Qed.

Lemma NewInstance_default σ errors (code : Z) (stack : string) :
  (∀ message, index errors "message" = VString message → message = "") →
  NewInstance σ errors code stack
  = {| Message := status.GetDescription σ code; StatusCode := code;
       Errors := errors; StackTrace := stack |}.
Proof.
  intros Hdef. unfold NewInstance.
  destruct (index errors "message") as [| | |message| |] eqn:Hidx; try done.
  rewrite (Hdef message eq_refl). done.
Qed.

(** One of the two always applies. *)
Lemma NewInstance_branches errors :
  (∃ message, index errors "message" = VString message ∧ message ≠ "")
  ∨ (∀ message, index errors "message" = VString message → message = "").
Proof.
  destruct (index errors "message") as [| | |message| |]; try (right; done).
  destruct (decide (message = "")) as [->|Hne]; [right|left; eauto].
  by intros ? [= <-].
Qed.

Lemma index_Some errors (k : string) (v : value) :
  entries_of errors !! k = Some v → index errors k = v.
Proof. unfold index. by intros ->. Qed.

Lemma index_VString errors (k s : string) :
  index errors k = VString s ↔ entries_of errors !! k = Some (VString s).
Proof.
  unfold index. split; [|by intros ->].
  by destruct (entries_of errors !! k) as [v|]; simpl; [intros ->|].
Qed.

Lemma entries_of_bag_delete errors (k : string) :
  entries_of (bag_delete errors k) = delete k (entries_of errors).
Proof. destruct errors; simpl; [done|]. by rewrite delete_empty. Qed.

(** [NewInstance] touches no entry of the bag but ["message"], and keeps the
    code and the trace it is given. *)
Lemma NewInstance_Errors_other σ errors (code : Z) (stack k : string) :
  k ≠ "message" →
  entries_of (Errors (NewInstance σ errors code stack)) !! k
  = entries_of errors !! k.
Proof.
  intros Hk.
  destruct (NewInstance_branches errors) as [(message & Hidx & Hne)|Hdef].
  - rewrite (NewInstance_custom _ _ _ _ _ Hidx Hne); cbn [Errors].
    by rewrite entries_of_bag_delete, lookup_delete_ne.
  - by rewrite (NewInstance_default _ _ _ _ Hdef).
Qed.

Lemma NewInstance_StatusCode σ errors (code : Z) (stack : string) :
  StatusCode (NewInstance σ errors code stack) = code.
Proof.
  destruct (NewInstance_branches errors) as [(message & Hidx & Hne)|Hdef].
  - by rewrite (NewInstance_custom _ _ _ _ _ Hidx Hne).
  - by rewrite (NewInstance_default _ _ _ _ Hdef).
Qed.

Lemma NewInstance_StackTrace σ errors (code : Z) (stack : string) :
  StackTrace (NewInstance σ errors code stack) = stack.
Proof.
  destruct (NewInstance_branches errors) as [(message & Hidx & Hne)|Hdef].
  - by rewrite (NewInstance_custom _ _ _ _ _ Hidx Hne).
  - by rewrite (NewInstance_default _ _ _ _ Hdef).
Qed.

End construction.

(** ** The two views *)

Section views.
Import exception.
Implicit Types (σ : gmap nat (gmap Z string)) (errors : option (gmap string value)).
Implicit Types (e : CoreException) (entries : list (string * value)).

(** Assigning into the map literal never panics: the loop of [Format] runs
    to its end and leaves what [range_assign] computes. *)
Lemma foldl_bag_assign entries (formatted : gmap string value) :
  foldl (λ acc kv, bind acc (λ m, bag_assign m kv.1 kv.2))
        (Ok (Some formatted)) entries
  = Ok (Some (range_assign entries formatted)).
Proof.
  revert formatted.
  induction entries as [|[k v] rest IH]; intros formatted; simpl; [done|].
  apply IH.
Qed.

(** In whatever order the detail bag is traversed, [Format] returns the fixed
    fields overlaid with the entries of the bag. *)
Lemma Format_ranging_union e entries :
  entries ≡ₚ map_to_list (entries_of (Errors e)) →
  Format_ranging entries e
  = Ok (Some (entries_of (Errors e) ∪ fixed_fields e)).
Proof.
  intros Hperm. unfold Format_ranging.
  destruct (Errors e) as [bag|] eqn:He; simpl in *.
  - by rewrite foldl_bag_assign, (range_assign_union _ _ _ Hperm).
  - by rewrite (left_id_L ∅ (∪)).
Qed.

Lemma Format_union e :
  Format e = Ok (Some (entries_of (Errors e) ∪ fixed_fields e)).
Proof. by apply Format_ranging_union. Qed.

Lemma fixed_fields_lookup e :
  fixed_fields e !! "status" = Some (VString status.ERROR)
  ∧ fixed_fields e !! "error_code" = Some (VInt (GetStatusCode e))
  ∧ fixed_fields e !! "message" = Some (VString (Error e))
  ∧ dom (fixed_fields e) = {[ "status"; "error_code"; "message" ]}.
Proof.
  repeat split.
Qed.

End views.

(** ** The structured error: views of a constructed error *)

Section structured_error.
Import exception.
Implicit Types (σ : gmap nat (gmap Z string)) (errors : option (gmap string value)).

(** C1. [Format] of a constructed error never panics and returns the fixed
    fields ["status"] (the error flag), ["error_code"] (the status code) and
    ["message"] (the message) overlaid with every entry of the detail bag,
    in whatever order the bag is traversed: a key of the bag shows the bag's
    value, also when it is one of the three fixed keys, and every other key
    shows the fixed field.  In particular, details holding
    ["status": "pending"] give ["pending"] under ["status"]. *)
Theorem Format_detail_bag_wins σ errors (code : Z) (stack : string) :
  let e := NewInstance σ errors code stack in
  let formatted := entries_of (GetErrors e) ∪ fixed_fields e in
  Format e = Ok (Some formatted)
  ∧ fixed_fields e
    = {[ "status" := VString status.ERROR;
         "error_code" := VInt (GetStatusCode e);
         "message" := VString (Error e) ]}
  ∧ (∀ k v, entries_of (GetErrors e) !! k = Some v → formatted !! k = Some v)
  ∧ (∀ k, entries_of (GetErrors e) !! k = None →
          formatted !! k = fixed_fields e !! k)
  ∧ (∀ entries, entries ≡ₚ map_to_list (entries_of (GetErrors e)) →
                Format_ranging entries e = Format e)
  ∧ (index errors "status" = VString "pending" →
     formatted !! "status" = Some (VString "pending")).
Proof.
  intros e formatted. split; [apply Format_union|].
  split; [reflexivity|]. split; [|split; [|split]].
  - intros k v Hk. by apply lookup_union_Some_l.
  - intros k Hk. unfold formatted. by rewrite lookup_union_r.
  - intros entries Hperm.
    by rewrite Format_union, (Format_ranging_union _ _ Hperm).
  - intros Hpending. apply lookup_union_Some_l.
    unfold GetErrors, e. rewrite NewInstance_Errors_other by done.
    unfold index in Hpending.
    by destruct (entries_of errors !! "status") as [v|]; simplify_eq/=.
Qed.

(** The collision case of the specification: the bag's ["status"] replaces
    the error flag, and the consumed ["message"] entry is not flattened. *)
Lemma Format_detail_bag_wins_witness :
  let details : gmap string value :=
    {[ "message" := VString "keep-already-consumed";
       "message_extra" := VString "Y";
       "status" := VString "pending" ]} in
  let e := NewInstance status.init (Some details) status.BadRequest "trace" in
  Format e
  = Ok (Some {[ "status" := VString "pending";
                "error_code" := VInt 400;
                "message" := VString "keep-already-consumed";
                "message_extra" := VString "Y" ]})
  ∧ (entries_of (GetErrors e) ∪ fixed_fields e) !! "status"
    = Some (VString "pending").
Proof.
  intros details e.
  destruct (Format_detail_bag_wins status.init (Some details)
              status.BadRequest "trace") as (Hfmt & _ & _ & _ & _ & Hstatus).
  split.
  - etrans; [exact Hfmt|]. reflexivity.
  - apply Hstatus. reflexivity.
Defined.

(** C5. [GetErrorsForLog] of a constructed error has exactly the keys
    ["message"], ["status_code"], ["errors"] and ["stack_trace"]; they hold
    the message, the status code, the whole detail bag as one nested map, and
    the trace, whatever keys the bag has. *)
Theorem GetErrorsForLog_reserved_keys σ errors (code : Z) (stack : string) :
  let e := NewInstance σ errors code stack in
  dom (GetErrorsForLog e)
  = {[ "message"; "status_code"; "errors"; "stack_trace" ]}
  ∧ size (GetErrorsForLog e) = 4%nat
  ∧ GetErrorsForLog e !! "message" = Some (VString (Error e))
  ∧ GetErrorsForLog e !! "status_code" = Some (VInt code)
  ∧ GetErrorsForLog e !! "errors" = Some (VMap (GetErrors e))
  ∧ GetErrorsForLog e !! "stack_trace" = Some (VString stack).
Proof.
  intros e.
  assert (GetErrorsForLog e
          = {[ "message" := VString (Error e);
               "status_code" := VInt code;
               "errors" := VMap (GetErrors e);
               "stack_trace" := VString stack ]}) as ->.
  { unfold GetErrorsForLog, status.GetValue, e.
    by rewrite NewInstance_StatusCode, NewInstance_StackTrace. }
  repeat split.
Qed.

(** C6. [GetDetails] of a constructed error returns the map stored under
    ["details"] in the detail bag (the entry the details were given with)
    when there is one, and an empty map when the key is missing or holds
    anything else; [GetDetailsMessage] returns the string stored under
    ["error"] in that result, and the empty string when the key is missing or
    holds anything else.  Both are total: no input makes them fail. *)
Theorem GetDetails_GetDetailsMessage_total σ errors (code : Z) (stack : string) :
  let e := NewInstance σ errors code stack in
  GetDetails e
  = match entries_of (GetErrors e) !! "details" with
    | Some (VMap details) => details
    | _ => Some ∅
    end
  ∧ entries_of (GetErrors e) !! "details" = entries_of errors !! "details"
  ∧ GetDetailsMessage e
    = match entries_of (GetDetails e) !! "error" with
      | Some (VString msg) => msg
      | _ => ""
      end.
Proof.
  intros e. split; [|split].
  - unfold GetDetails, GetErrors, index.
    by destruct (entries_of (Errors e) !! "details") as [[]|].
  - by apply NewInstance_Errors_other.
  - unfold GetDetailsMessage, index.
    by destruct (entries_of (GetDetails e) !! "error") as [[]|].
Qed.

(** C10. Constructing with the nil map: the message is the description of
    the default code, the detail bag is the nil map, [GetDetails] is an empty
    map, [GetDetailsMessage] is the empty string, and [Format] returns,
    without panicking, a map with the three fixed keys and nothing else. *)
Theorem NewInstance_nil_details σ (code : Z) (stack : string) :
  let e := NewInstance σ None code stack in
  Error e = status.GetDescription σ code
  ∧ GetErrors e = None
  ∧ GetDetails e = Some ∅
  ∧ GetDetailsMessage e = ""
  ∧ Format e
    = Ok (Some {[ "status" := VString status.ERROR;
                  "error_code" := VInt code;
                  "message" := VString (status.GetDescription σ code) ]})
  ∧ dom (fixed_fields e) = {[ "status"; "error_code"; "message" ]}.
Proof. intros e. repeat split. Qed.

(** ** The structured error: message resolution *)

(** C2. When the details hold a non-empty string under ["message"],
    [NewInstance] makes it the message of the error and deletes the key from
    the detail bag, which is otherwise unchanged; when they hold no such
    value, the message is the description of the default code and the bag is
    the one given. *)
Theorem NewInstance_message_from_details σ errors (code : Z) (stack : string) :
  let e := NewInstance σ errors code stack in
  (∀ v, entries_of errors !! "message" = Some (VString v) → v ≠ "" →
        Error e = v
        ∧ entries_of (GetErrors e) !! "message" = None
        ∧ GetErrors e = bag_delete errors "message")
  ∧ ((∀ v, entries_of errors !! "message" = Some (VString v) → v = "") →
     Error e = status.GetDescription σ code
     ∧ GetErrors e = errors).
Proof.
  intros e. split.
  - intros v Hv%index_VString Hne. unfold e.
    rewrite (NewInstance_custom _ _ _ _ _ Hv Hne); cbn.
    split; [done|]. split; [|done].
    by rewrite entries_of_bag_delete, lookup_delete_eq.
  - intros Hdef. unfold e. rewrite NewInstance_default; [done|].
    intros v Hv%index_VString. by apply Hdef.
Qed.

(** The two constructions of [TestNewInstance]. *)
Lemma NewInstance_message_from_details_witness :
  let explicit : gmap string value :=
    {[ "message" := VString "This is a custom message.";
       "details" := VMap (Some {[ "field" := VString "username" ]}) ]} in
  let plain : gmap string value := {[ "field" := VString "password" ]} in
  let e1 := NewInstance status.init (Some explicit) status.BadRequest "trace" in
  let e2 := NewInstance status.init (Some plain) status.NotFound "trace" in
  (Error e1 = "This is a custom message."
   ∧ entries_of (GetErrors e1) !! "message" = None
   ∧ GetErrors e1 = bag_delete (Some explicit) "message")
  ∧ (Error e2 = "Not Found" ∧ GetErrors e2 = Some plain).
Proof.
  intros explicit plain e1 e2. split.
  - apply (proj1 (NewInstance_message_from_details status.init (Some explicit)
                    status.BadRequest "trace")); [reflexivity | discriminate].
  - apply (proj2 (NewInstance_message_from_details status.init (Some plain)
                    status.NotFound "trace")).
    intros v Hv. vm_compute in Hv. discriminate Hv.
Defined.

(** C3, as the code has it.  The detail bag of the constructed error, which
    [GetErrorsForLog] nests under ["errors"] and [Format] flattens over the
    fixed fields, has no ["message"] key when the details had none or held a
    non-empty string there, and [Format] then shows the message of the error
    under ["message"].  An entry holding an empty string or a value that is
    not a string is not consumed: it stays in the bag as it was, and [Format]
    shows it under ["message"]. *)
Theorem NewInstance_message_key σ errors (code : Z) (stack : string) :
  let e := NewInstance σ errors code stack in
  let formatted := entries_of (GetErrors e) ∪ fixed_fields e in
  GetErrorsForLog e !! "errors" = Some (VMap (GetErrors e))
  ∧ Format e = Ok (Some formatted)
  ∧ (entries_of errors !! "message" = None
     ∨ (∃ s, entries_of errors !! "message" = Some (VString s) ∧ s ≠ "") →
     entries_of (GetErrors e) !! "message" = None
     ∧ formatted !! "message" = Some (VString (Error e)))
  ∧ (∀ v, entries_of errors !! "message" = Some v →
          (∀ s, v = VString s → s = "") →
          entries_of (GetErrors e) !! "message" = Some v
          ∧ formatted !! "message" = Some v).
Proof.
  intros e formatted. split; [reflexivity|]. split; [apply Format_union|].
  split.
  - intros Hcase.
    assert (entries_of (GetErrors e) !! "message" = None) as Hnone.
    { destruct Hcase as [Habsent|(s & Hs & Hne)].
      - unfold e. rewrite NewInstance_default; [done|].
        intros m Hm%index_VString. by rewrite Habsent in Hm.
      - apply index_VString in Hs. unfold e.
        rewrite (NewInstance_custom _ _ _ _ _ Hs Hne); cbn.
        by rewrite entries_of_bag_delete, lookup_delete_eq. }
    split; [done|]. unfold formatted. by rewrite lookup_union_r.
  - intros v Hv Hunusable.
    assert (entries_of (GetErrors e) !! "message" = Some v) as Hkept.
    { unfold e. rewrite NewInstance_default; [done|].
      intros m Hm%index_VString. apply Hunusable. by simplify_eq. }
    split; [done|]. by apply lookup_union_Some_l.
Qed.

Lemma NewInstance_message_key_witness :
  let consumed : gmap string value :=
    {[ "message" := VString "X"; "field" := VString "f" ]} in
  let kept : gmap string value :=
    {[ "message" := VString ""; "field" := VString "f" ]} in
  let e1 := NewInstance status.init (Some consumed) status.BadRequest "trace" in
  let e2 := NewInstance status.init (Some kept) status.BadRequest "trace" in
  (entries_of (GetErrors e1) !! "message" = None
   ∧ (entries_of (GetErrors e1) ∪ fixed_fields e1) !! "message"
     = Some (VString (Error e1)))
  ∧ (entries_of (GetErrors e2) !! "message" = Some (VString "")
     ∧ (entries_of (GetErrors e2) ∪ fixed_fields e2) !! "message"
       = Some (VString "")).
Proof.
  intros consumed kept e1 e2. split.
  - apply (NewInstance_message_key status.init (Some consumed)
             status.BadRequest "trace").
    right. exists "X". split; [reflexivity | discriminate].
  - apply (NewInstance_message_key status.init (Some kept)
             status.BadRequest "trace"); [reflexivity|].
    by intros s [= <-].
Defined.

(** C3, as claimed, fails: a ["message"] entry holding the empty string, or
    a value that is not a string, is still in the detail bag after
    construction, in the map nested by [GetErrorsForLog], and among the
    entries [Format] flattens. *)
Lemma NewInstance_keeps_unusable_message :
  let blank : gmap string value := {[ "message" := VString "" ]} in
  let number : gmap string value := {[ "message" := VInt 42 ]} in
  let e1 := NewInstance status.init (Some blank) status.BadRequest "trace" in
  let e2 := NewInstance status.init (Some number) status.BadRequest "trace" in
  entries_of (GetErrors e1) !! "message" = Some (VString "")
  ∧ entries_of (GetErrors e2) !! "message" = Some (VInt 42)
  ∧ GetErrorsForLog e1 !! "errors" = Some (VMap (Some blank))
  ∧ GetErrorsForLog e2 !! "errors" = Some (VMap (Some number))
  ∧ Format e2
    = Ok (Some {[ "status" := VString "error";
                  "error_code" := VInt 400;
                  "message" := VInt 42 ]}).
Proof. repeat split. Qed.

(** C4. In every state a client program can bring the process to, whatever
    the details and the default code, the message of the constructed error
    is not empty: it is the non-empty string the details hold under
    ["message"], or the description of the registered default code, or
    ["Unknown Status Code"] when the default code is not registered. *)
Theorem NewInstance_message_nonempty
    (ops : list status.client_op) errors (code : Z) (stack : string) :
  let σ := status.heap (status.run ops) in
  let e := NewInstance σ errors code stack in
  Error e ≠ ""
  ∧ ((∃ v, entries_of errors !! "message" = Some (VString v)
           ∧ v ≠ "" ∧ Error e = v)
     ∨ (∃ desc, status.statusDescriptions !! code = Some desc
                ∧ Error e = desc)
     ∨ ((code ∉ dom status.statusDescriptions)
        ∧ Error e = "Unknown Status Code")).
Proof.
  intros σ e.
  assert ((∃ v, entries_of errors !! "message" = Some (VString v)
                ∧ v ≠ "" ∧ Error e = v)
          ∨ (∃ desc, status.statusDescriptions !! code = Some desc
                     ∧ Error e = desc)
          ∨ ((code ∉ dom status.statusDescriptions)
             ∧ Error e = "Unknown Status Code")) as Hcases.
  { destruct (NewInstance_branches errors) as [(v & Hidx & Hne)|Hdef].
    - left. exists v. unfold e.
      rewrite (NewInstance_custom _ _ _ _ _ Hidx Hne).
      by apply index_VString in Hidx.
    - right. unfold e. rewrite (NewInstance_default _ _ _ _ Hdef); cbn.
      unfold status.GetDescription, σ. rewrite run_registry.
      destruct (status.statusDescriptions !! code) as [desc|] eqn:Hcode.
      + left. eauto.
      + right. split; [|done]. by apply not_elem_of_dom. }
  split; [|done].
  destruct Hcases as [(v & _ & Hne & ->)|[(desc & Hcode & ->)|[_ ->]]].
  - done.
  - by apply (statusDescriptions_wf code desc).
  - discriminate.
Qed.

(** The checks of [TestCoreExceptionInterfaceMethods] and of
    [TestNewBadFunctionCall]. *)
Example TestCoreExceptionInterfaceMethods :
  let errorsMap : gmap string value :=
    {[ "message" := VString "Validation failed.";
       "errors" := VMap (Some {[ "email" := VString "invalid_email" ]});
       "details" := VMap (Some {[ "error" := VString "email_format_error";
                                  "code" := VInt 123 ]});
       "extra_data" := VString "some_value" ]} in
  let kept : gmap string value := delete "message" errorsMap in
  let coreException :=
    NewInstance status.init (Some errorsMap) status.BadRequest "trace" in
  Error coreException = "Validation failed."
  ∧ GetErrors coreException = Some kept
  ∧ GetDetails coreException
    = Some {[ "error" := VString "email_format_error"; "code" := VInt 123 ]}
  ∧ GetDetailsMessage coreException = "email_format_error"
  ∧ GetErrorsForLog coreException
    = {[ "message" := VString "Validation failed.";
         "status_code" := VInt 400;
         "errors" := VMap (Some kept);
         "stack_trace" := VString "trace" ]}
  ∧ Format coreException
    = Ok (Some (<["status" := VString "error"]>
                  (<["error_code" := VInt 400]>
                     (<["message" := VString "Validation failed."]> kept)))).
Proof. repeat split. Qed.

Example TestNewBadFunctionCall :
  let errorsMap : gmap string value :=
    {[ "message" := VString "Missing required argument.";
       "details" :=
         VMap (Some {[ "error" := VString "argument_count_mismatch" ]}) ]} in
  let err :=
    BadFunctionCall_base (NewBadFunctionCall status.init (Some errorsMap) "trace") in
  StatusCode err = status.BadRequest
  ∧ Error err = "Missing required argument."
  ∧ GetDetailsMessage err = "argument_count_mismatch".
Proof. repeat split. Qed.

(** What the nested accessors do with a ["details"] entry that is not a
    map, and with an ["error"] entry that is not a string. *)
Example GetDetails_wrong_types :
  let e1 := NewInstance status.init (Some {[ "details" := VString "oops" ]})
              status.BadRequest "trace" in
  let e2 := NewInstance status.init
              (Some {[ "details" := VMap (Some {[ "error" := VInt 7 ]}) ]})
              status.BadRequest "trace" in
  let e3 := NewInstance status.init (Some {[ "details" := VMap None ]})
              status.BadRequest "trace" in
  GetDetails e1 = Some ∅ ∧ GetDetailsMessage e1 = ""
  ∧ GetDetails e2 = Some {[ "error" := VInt 7 ]} ∧ GetDetailsMessage e2 = ""
  ∧ GetDetails e3 = None ∧ GetDetailsMessage e3 = "".
Proof. repeat split. Qed.

End structured_error.

(** ** Further properties of the registry *)

Section registry_more.
Import status.
Implicit Types (σ : gmap nat (gmap Z string)) (l : nat).

Lemma statusDescriptions_literal_descriptions :
  NoDup statusDescriptions_literal.*2.
Proof.
  apply (bool_decide_unpack (NoDup statusDescriptions_literal.*2)).
  by vm_compute.
Qed.

Lemma NoDup_snd_elem_of {A B : Type} (kvs : list (A * B)) (a b : A) (d : B) :
  NoDup kvs.*2 → (a, d) ∈ kvs → (b, d) ∈ kvs → a = b.
Proof.
  induction kvs as [|[a0 d0] kvs IH]; intros Hnd Ha Hb.
  - by apply elem_of_nil in Ha.
  - rewrite fmap_cons in Hnd. apply NoDup_cons in Hnd as [Hd0 Hnd].
    apply elem_of_cons in Ha as [Ha|Ha], Hb as [Hb|Hb]; simplify_eq/=.
    + done.
    + destruct Hd0. by apply (list_elem_of_fmap_2 snd kvs (b, d0)).
    + destruct Hd0. by apply (list_elem_of_fmap_2 snd kvs (a, d0)).
    + by apply IH.
Qed.

(** X1. [NewStatusCode] and [GetDescription] agree on what is a known code:
    in every state a client program can bring the process to, either the
    value is accepted, returned unchanged, and described by a text other
    than ["Unknown Status Code"], or it is rejected with code [0], and both
    the value and the returned [0] are described as unknown. *)
Theorem NewStatusCode_GetDescription_agree (ops : list client_op) (value : Z) :
  let σ := heap (run ops) in
  (NewStatusCode σ value = (value, true)
   ∧ GetValue (NewStatusCode σ value).1 = value
   ∧ GetDescription σ value ≠ "Unknown Status Code")
  ∨ (NewStatusCode σ value = (0, false)
     ∧ GetDescription σ value = "Unknown Status Code"
     ∧ GetDescription σ (NewStatusCode σ value).1 = "Unknown Status Code").
Proof.
  intros σ. unfold NewStatusCode, GetDescription, σ. rewrite run_registry.
  destruct (statusDescriptions !! value) as [desc|] eqn:Hv.
  - left. split; [done|]. split; [done|].
    by apply (statusDescriptions_wf value desc).
  - right. cbn [fst]. by rewrite statusDescriptions_zero.
Qed.

(** X2. No code below 100 or above 511 is registered: such a value, negative
    and zero included, is rejected by [NewStatusCode] and described as
    unknown. *)
Theorem NewStatusCode_outside_classes (ops : list client_op) (value : Z) :
  (value < 100 ∨ 511 < value)%Z →
  let σ := heap (run ops) in
  NewStatusCode σ value = (0, false)
  ∧ GetDescription σ value = "Unknown Status Code".
Proof.
  intros Hout σ. unfold NewStatusCode, GetDescription, σ. rewrite run_registry.
  destruct (statusDescriptions !! value) as [desc|] eqn:Hv; [|done].
  apply statusDescriptions_wf in Hv. lia.
Qed.

Lemma NewStatusCode_outside_classes_witness :
  NewStatusCode (heap (run [CallGetStatusTexts])) (-1) = (0, false)
  ∧ GetDescription (heap (run [CallGetStatusTexts])) (-1)
    = "Unknown Status Code".
Proof.
  apply (NewStatusCode_outside_classes [CallGetStatusTexts] (-1)). lia.
Defined.

(** X3. No two registered codes share a description, and no unregistered
    code is described like a registered one: a registered code and any other
    code have different descriptions. *)
Theorem GetDescription_injective (ops : list client_op) (c1 c2 : Z) :
  c1 ∈ dom statusDescriptions → c1 ≠ c2 →
  GetDescription (heap (run ops)) c1 ≠ GetDescription (heap (run ops)) c2.
Proof.
  intros [d1 H1]%elem_of_dom Hne. unfold GetDescription.
  rewrite run_registry, H1.
  destruct (statusDescriptions !! c2) as [d2|] eqn:H2; intros Heq.
  - subst d2. apply statusDescriptions_literal_elem in H1, H2. apply Hne.
    by apply (NoDup_snd_elem_of _ _ _ _ statusDescriptions_literal_descriptions
               H1 H2).
  - by apply statusDescriptions_wf in H1 as (_ & _ & ?).
Qed.

Lemma GetDescription_injective_witness :
  GetDescription (heap (run [])) 302 ≠ GetDescription (heap (run [])) NotFound
  ∧ GetDescription (heap (run [])) NotFound ≠ GetDescription (heap (run [])) 999.
Proof.
  split.
  - apply (GetDescription_injective [] 302 NotFound); [|discriminate].
    apply elem_of_dom. by exists "Found".
  - apply (GetDescription_injective [] NotFound 999); [|discriminate].
    apply elem_of_dom. by exists "Not Found".
Defined.

(** X4. The [const] blocks and the map literal describe the same codes: the
    62 named constants have pairwise different names and values, every one
    of them is accepted by [NewStatusCode] in every state a client program
    can bring the process to, and every key of the registry is the value of
    a constant. *)
Theorem StatusCode_constants_registered (ops : list client_op) :
  let σ := heap (run ops) in
  length StatusCode_constants = 62%nat
  ∧ NoDup StatusCode_constants.*1
  ∧ NoDup StatusCode_constants.*2
  ∧ Forall (λ nc, NewStatusCode σ nc.2 = (nc.2, true)) StatusCode_constants
  ∧ dom statusDescriptions = list_to_set StatusCode_constants.*2.
Proof.
  intros σ. split; [reflexivity|].
  split. { apply (bool_decide_unpack (NoDup StatusCode_constants.*1)).
           by vm_compute. }
  split. { apply (bool_decide_unpack (NoDup StatusCode_constants.*2)).
           by vm_compute. }
  assert (StatusCode_constants.*2 = statusDescriptions_literal.*1) as Hsame
    by reflexivity.
  split; [|by rewrite Hsame; apply dom_list_to_map_L].
  apply Forall_forall. intros [name c] Hin.
  assert (c ∈ dom statusDescriptions) as [desc Hc]%elem_of_dom.
  { unfold statusDescriptions. rewrite dom_list_to_map_L, <-Hsame.
    apply elem_of_list_to_set.
    by apply (list_elem_of_fmap_2 snd StatusCode_constants (name, c)). }
  unfold NewStatusCode, σ. rewrite run_registry. cbn [snd]. by rewrite Hc.
Qed.

End registry_more.

(** ** Further properties of the copies *)

Section copies.
Import status.
Implicit Types (σ : gmap nat (gmap Z string)) (l : nat).

(** The references a client holds are allocated and pairwise different. *)
Lemma exec_held_allocated (c : client) (op : client_op) :
  NoDup (held c) ∧ Forall (λ l, l ∈ dom (heap c)) (held c) →
  NoDup (held (exec c op)) ∧ Forall (λ l, l ∈ dom (heap (exec c op))) (held (exec c op)).
Proof.
  intros [Hnd Hdom]. destruct op as [|i mu]; unfold exec.
  - rewrite GetStatusTexts_copy; cbn [heap held]. split.
    + apply NoDup_app. split; [done|]. split; [|apply NoDup_singleton].
      intros l Hl ->%list_elem_of_singleton.
      apply (is_fresh (dom (heap c))).
      by apply (proj1 (Forall_forall _ _) Hdom).
    + apply Forall_app. split.
      * eapply Forall_impl; [exact Hdom|]. intros l Hl; simpl in Hl |- *.
        rewrite dom_insert_L. set_solver.
      * apply Forall_singleton. rewrite dom_insert_L. set_solver.
  - destruct (held c !! i) as [l|]; [|done]. cbn [heap held].
    split; [done|]. eapply Forall_impl; [exact Hdom|].
    intros l' Hl'; simpl in Hl' |- *. by rewrite dom_mutate.
Qed.

Lemma foldl_exec_held_allocated (c : client) (ops : list client_op) :
  NoDup (held c) ∧ Forall (λ l, l ∈ dom (heap c)) (held c) →
  NoDup (held (foldl exec c ops))
  ∧ Forall (λ l, l ∈ dom (heap (foldl exec c ops))) (held (foldl exec c ops)).
Proof.
  revert c. induction ops as [|op ops IH]; intros c Hc; simpl; [done|].
  by apply IH, exec_held_allocated.
Qed.

Lemma foldl_exec_held_length (c : client) (ops : list client_op) :
  length (held (foldl exec c ops)) = (length (held c) + calls ops)%nat.
Proof.
  revert c. induction ops as [|op ops IH]; intros c; simpl; [lia|].
  rewrite IH. destruct op as [|i mu]; unfold exec.
  - rewrite GetStatusTexts_copy; cbn [held]. rewrite length_app; simpl. lia.
  - by destruct (held c !! i).
Qed.

Lemma run_held_allocated (ops : list client_op) :
  NoDup (held (run ops))
  ∧ Forall (λ l, l ∈ dom (heap (run ops))) (held (run ops)).
Proof.
  apply foldl_exec_held_allocated. split; [apply NoDup_nil_2|apply Forall_nil_2].
Qed.

(** X5. The copy [GetStatusTexts] makes does not depend on the order in
    which the runtime lets the loop traverse the registry: run over any
    permutation of its entries, the loop gives the same reference and the
    same store. *)
Theorem GetStatusTexts_any_order σ (entries : list (Z * string)) :
  entries ≡ₚ map_to_list (deref σ statusDescriptions_loc) →
  GetStatusTexts_ranging entries σ = GetStatusTexts σ.
Proof.
  intros Hperm.
  by rewrite GetStatusTexts_copy, (GetStatusTexts_ranging_copy _ _ Hperm).
Qed.

Lemma GetStatusTexts_any_order_witness :
  GetStatusTexts_ranging (reverse (map_to_list statusDescriptions)) init
  = GetStatusTexts init.
Proof.
  apply (GetStatusTexts_any_order init). apply reverse_Permutation.
Defined.

(** X6. What [GetStatusTexts] returns agrees with the lookups: in every
    state a client program can bring the process to, the returned map has 62
    entries, and it holds a description under a code exactly when
    [NewStatusCode] accepts the code and [GetDescription] returns that
    description. *)
Theorem GetStatusTexts_agrees_with_lookups
    (ops : list client_op) (c : Z) (desc : string) :
  let σ := heap (run ops) in
  let statusTexts := deref ((GetStatusTexts σ).2) ((GetStatusTexts σ).1) in
  size statusTexts = 62%nat
  ∧ (statusTexts !! c = Some desc
     ↔ NewStatusCode σ c = (c, true) ∧ GetDescription σ c = desc).
Proof.
  intros σ statusTexts.
  assert (statusTexts = statusDescriptions) as ->.
  { unfold statusTexts. rewrite GetStatusTexts_copy; cbn [fst snd].
    rewrite deref_insert_eq. apply run_registry. }
  split.
  - unfold statusDescriptions. rewrite map_size_list_to_map; [done|].
    apply statusDescriptions_literal_codes.
  - unfold NewStatusCode, GetDescription, σ. rewrite run_registry. split.
    + by intros ->.
    + destruct (statusDescriptions !! c); [|by intros [[=] _]].
      by intros [_ ->].
Qed.

(** X7. The maps a client has obtained from [GetStatusTexts] are as many as
    its calls, they are pairwise different objects, all allocated, and none
    of them is the registry. *)
Theorem GetStatusTexts_references_distinct (ops : list client_op) :
  length (held (run ops)) = calls ops
  ∧ NoDup (held (run ops))
  ∧ Forall (λ l, l ∈ dom (heap (run ops)) ∧ l ≠ statusDescriptions_loc)
           (held (run ops)).
Proof.
  split; [apply (foldl_exec_held_length {| heap := init; held := [] |})|].
  destruct (run_held_allocated ops) as [Hnd Hdom].
  destruct (run_registry_intact ops) as [_ Hreg].
  split; [done|]. apply Forall_forall. intros l Hl. split.
  - by apply (proj1 (Forall_forall _ _) Hdom).
  - by apply (proj1 (Forall_forall _ _) Hreg).
Qed.

(** X8. The copies are independent of each other: an assignment, a deletion
    or a clear applied to one map obtained from [GetStatusTexts] leaves every
    other map obtained from it as it was. *)
Theorem GetStatusTexts_copies_independent
    (ops : list client_op) (i j : nat) (li lj : nat) (mu : mutation) :
  held (run ops) !! i = Some li →
  held (run ops) !! j = Some lj →
  i ≠ j →
  deref (mutate li mu (heap (run ops))) lj = deref (heap (run ops)) lj.
Proof.
  intros Hi Hj Hne. unfold deref. rewrite lookup_mutate_ne; [done|].
  intros ->. apply Hne.
  by apply (NoDup_lookup _ _ _ _ (proj1 (run_held_allocated ops)) Hi Hj).
Qed.

Lemma GetStatusTexts_copies_independent_witness :
  let ops := [CallGetStatusTexts; CallGetStatusTexts] in
  deref (mutate 1%nat (Assign 200 "Not OK") (heap (run ops))) 2%nat !! 200
  = Some "OK"
  ∧ deref (mutate 1%nat (Assign 200 "Not OK") (heap (run ops))) 1%nat !! 200
    = Some "Not OK".
Proof.
  intros ops. split; [|by vm_compute].
  rewrite (GetStatusTexts_copies_independent ops 0 1 1 2 (Assign 200 "Not OK"));
    [by vm_compute | by vm_compute | by vm_compute | done].
Defined.

End copies.

(** ** Further properties of the structured error *)

Section structured_error_more.
Import exception.
Implicit Types (σ : gmap nat (gmap Z string)) (errors : option (gmap string value)).
Implicit Types (e : CoreException).

(** After construction the bag holds no usable message any more. *)
Lemma NewInstance_message_consumed σ errors (code : Z) (stack message : string) :
  index (Errors (NewInstance σ errors code stack)) "message" = VString message →
  message = "".
Proof.
  destruct (NewInstance_branches errors) as [(m & Hidx & Hne)|Hdef].
  - rewrite (NewInstance_custom _ _ _ _ _ Hidx Hne); cbn [Errors].
    unfold index. by rewrite entries_of_bag_delete, lookup_delete_eq.
  - rewrite (NewInstance_default _ _ _ _ Hdef); cbn [Errors]. apply Hdef.
Qed.

(** X9. Whatever the details hold (a ["status_code"] or an ["error_code"]
    entry included), the constructed error has the default code and the trace
    it was given; every entry of the details other than ["message"] is in the
    detail bag unchanged, nothing is added, and the bag is the nil map
    exactly when the details were. *)
Theorem NewInstance_keeps_code_trace_entries σ errors (code : Z) (stack : string) :
  let e := NewInstance σ errors code stack in
  GetStatusCode e = code
  ∧ GetStackTrace e = stack
  ∧ delete "message" (entries_of (GetErrors e))
    = delete "message" (entries_of errors)
  ∧ dom (entries_of (GetErrors e)) ⊆ dom (entries_of errors)
  ∧ (GetErrors e = None ↔ errors = None).
Proof.
  intros e. unfold GetStatusCode, GetStackTrace, GetErrors, status.GetValue, e.
  destruct (NewInstance_branches errors) as [(m & Hidx & Hne)|Hdef].
  - rewrite (NewInstance_custom _ _ _ _ _ Hidx Hne); cbn.
    rewrite entries_of_bag_delete, delete_delete_eq, dom_delete_L.
    split; [done|]. split; [done|]. split; [done|].
    split; [by apply subseteq_difference_l|]. by destruct errors.
  - by rewrite (NewInstance_default _ _ _ _ Hdef).
Qed.

(** X10. Constructing again from the detail bag of a constructed error
    (with any code, trace and store) leaves that bag as it is and gives the
    description of the new default code as the message: a message supplied
    in the details is consumed by the first construction. *)
Theorem NewInstance_again σ σ' errors (code code' : Z) (stack stack' : string) :
  let e := NewInstance σ errors code stack in
  let e' := NewInstance σ' (GetErrors e) code' stack' in
  GetErrors e' = GetErrors e
  ∧ Error e' = status.GetDescription σ' code'.
Proof.
  intros e e'. unfold e', GetErrors.
  rewrite NewInstance_default; [done|].
  intros message. apply NewInstance_message_consumed.
Qed.

(** X11. [Format] of any [CoreException] value, also one built as a struct
    literal with a nil or arbitrary [Errors] map, returns without panicking;
    the keys of the result are the three fixed keys together with the keys
    of the detail bag. *)
Theorem Format_keys e :
  Format e = Ok (Some (entries_of (Errors e) ∪ fixed_fields e))
  ∧ dom (entries_of (Errors e) ∪ fixed_fields e)
    = dom (entries_of (Errors e)) ∪ {[ "status"; "error_code"; "message" ]}.
Proof.
  split; [apply Format_union|].
  by rewrite dom_union_L, (proj2 (proj2 (proj2 (fixed_fields_lookup e)))).
Qed.

(** X12. [GetDetailsMessage] of a constructed error is a given non-empty
    string exactly when the details hold, under ["details"], a map that
    holds that string under ["error"]. *)
Theorem GetDetailsMessage_nonempty_iff
    σ errors (code : Z) (stack msg : string) :
  msg ≠ "" →
  GetDetailsMessage (NewInstance σ errors code stack) = msg
  ↔ ∃ details, entries_of errors !! "details" = Some (VMap details)
               ∧ entries_of details !! "error" = Some (VString msg).
Proof.
  intros Hne. unfold GetDetailsMessage, GetDetails, index.
  rewrite NewInstance_Errors_other by done. split.
  - destruct (entries_of errors !! "details") as [[| | | | |details]|];
      simpl; try (by intros <-).
    destruct (entries_of details !! "error") as [[| | |s| |]|] eqn:Herr;
      simpl; try (by intros <-).
    intros ->. eauto.
  - intros (details & -> & Herr); simpl. by rewrite Herr.
Qed.

Lemma GetDetailsMessage_nonempty_iff_witness :
  let errors : gmap string value :=
    {[ "message" := VString "Missing required argument.";
       "details" :=
         VMap (Some {[ "error" := VString "argument_count_mismatch" ]}) ]} in
  GetDetailsMessage (NewInstance status.init (Some errors) status.BadRequest "trace")
  = "argument_count_mismatch".
Proof.
  intros errors.
  apply (GetDetailsMessage_nonempty_iff status.init (Some errors)
           status.BadRequest "trace" "argument_count_mismatch"); [discriminate|].
  exists (Some {[ "error" := VString "argument_count_mismatch" ]}).
  split; reflexivity.
Defined.

(** X14. The log view loses nothing: two [CoreException] values with the
    same [GetErrorsForLog] have the same message, code, detail bag and
    trace. *)
Theorem GetErrorsForLog_injective (e1 e2 : CoreException) :
  GetErrorsForLog e1 = GetErrorsForLog e2 → e1 = e2.
Proof.
  intros Heq. destruct e1 as [m1 c1 b1 t1], e2 as [m2 c2 b2 t2].
  pose proof (f_equal (.!! "message") Heq) as Hm.
  pose proof (f_equal (.!! "status_code") Heq) as Hc.
  pose proof (f_equal (.!! "errors") Heq) as Hb.
  pose proof (f_equal (.!! "stack_trace") Heq) as Ht.
  vm_compute in Hm, Hc, Hb, Ht. by simplify_eq.
Qed.

Lemma GetErrorsForLog_injective_witness :
  NewInstance status.init (Some {[ "message" := VString "X" ]}) 400 "trace"
  = {| Message := "X"; StatusCode := 400; Errors := Some ∅;
       StackTrace := "trace" |}.
Proof. apply GetErrorsForLog_injective. reflexivity. Defined.

(** X15. When no key of the detail bag is ["status"], ["error_code"] or
    ["message"], [Format] loses nothing either: the three fixed keys hold
    the error flag, the code and the message, and removing them from the
    result gives back the detail bag. *)
Theorem Format_recovers_bag e :
  dom (entries_of (Errors e)) ## {[ "status"; "error_code"; "message" ]} →
  let formatted := entries_of (Errors e) ∪ fixed_fields e in
  Format e = Ok (Some formatted)
  ∧ formatted !! "status" = Some (VString status.ERROR)
  ∧ formatted !! "error_code" = Some (VInt (GetStatusCode e))
  ∧ formatted !! "message" = Some (VString (Error e))
  ∧ delete "status" (delete "error_code" (delete "message" formatted))
    = entries_of (Errors e).
Proof.
  intros Hdisj formatted.
  assert (∀ k, k ∈ ({[ "status"; "error_code"; "message" ]} : gset string) →
               entries_of (Errors e) !! k = None) as Hfree.
  { intros k Hk. apply not_elem_of_dom. intros Hin.
    exact (proj1 (elem_of_disjoint _ _) Hdisj k Hin Hk). }
  split; [apply Format_union|]. unfold formatted.
  split; [rewrite lookup_union_r; [done | apply Hfree; set_solver]|].
  split; [rewrite lookup_union_r; [done | apply Hfree; set_solver]|].
  split; [rewrite lookup_union_r; [done | apply Hfree; set_solver]|].
  apply map_eq. intros k.
  destruct (decide (k = "status")) as [->|Hs];
    [rewrite lookup_delete_eq; symmetry; apply Hfree; set_solver|].
  rewrite lookup_delete_ne by done.
  destruct (decide (k = "error_code")) as [->|Hc];
    [rewrite lookup_delete_eq; symmetry; apply Hfree; set_solver|].
  rewrite lookup_delete_ne by done.
  destruct (decide (k = "message")) as [->|Hm];
    [rewrite lookup_delete_eq; symmetry; apply Hfree; set_solver|].
  rewrite lookup_delete_ne by done.
  rewrite lookup_union.
  destruct (entries_of (Errors e) !! k) as [v|] eqn:Hk.
  - by destruct (fixed_fields e !! k).
  - rewrite (left_id_L None _).
    apply not_elem_of_dom. rewrite (proj2 (proj2 (proj2 (fixed_fields_lookup e)))).
    rewrite !elem_of_union, !elem_of_singleton. tauto.
Qed.

Lemma Format_recovers_bag_witness :
  let kept : gmap string value :=
    {[ "details" := VMap (Some {[ "user_id" := VInt 456 ]}) ]} in
  let e := NewInstance status.init
             (Some (<["message" := VString "The requested user was not found."]> kept))
             status.NotFound "trace" in
  Format e
  = Ok (Some {[ "status" := VString "error";
                "error_code" := VInt 404;
                "message" := VString "The requested user was not found.";
                "details" := VMap (Some {[ "user_id" := VInt 456 ]}) ]})
  ∧ delete "status" (delete "error_code" (delete "message"
      (entries_of (Errors e) ∪ fixed_fields e))) = kept.
Proof.
  intros kept e.
  destruct (Format_recovers_bag e) as (Hfmt & _ & _ & _ & Hbag).
  - apply (bool_decide_unpack _). by vm_compute.
  - split; [rewrite Hfmt; reflexivity | rewrite Hbag; reflexivity].
Defined.

End structured_error_more.

(** ** The variants *)

Section variants.
Import exception.

(** X13. Every variant constructor is [NewInstance] at the default code of
    its variant, whatever the details: 400 for [BadFunctionCall], [Length],
    [Logic], [Domain], [OutOfRange], [RequestParseBody], [InvalidArgument]
    and [BadMethodCall], 422 for [UnexpectedValue], [Overflow], [Range] and
    [OutOfBounds], 500 for [Runtime], [Underflow] and [Error].  In every
    state a client program can bring the process to, each of these codes is
    registered, so the message a variant falls back to is ["Bad Request"],
    ["Unprocessable Content"] or ["Internal Server Error"]. *)
Theorem variant_constructors_catalog
    (ops : list status.client_op) (errors : option (gmap string value))
    (stack : string) :
  let σ := status.heap (status.run ops) in
  let catalog : list (string * Z) :=
    [ ("NewBadFunctionCall", 400); ("NewLength", 400); ("NewLogic", 400);
      ("NewDomain", 400); ("NewUnexpectedValue", 422); ("NewOutOfRange", 400);
      ("NewRequestParseBody", 400); ("NewOverflow", 422); ("NewRuntime", 500);
      ("NewInvalidArgument", 400); ("NewBadMethodCall", 400);
      ("NewUnderflow", 500); ("NewRange", 422); ("NewOutOfBounds", 422);
      ("NewError", 500) ] in
  (λ ctor, (ctor.1, ctor.2 σ errors stack)) <$> variant_constructors
  = (λ nc, (nc.1, NewInstance σ errors nc.2 stack)) <$> catalog
  ∧ Forall (λ nc, (nc.2, status.GetDescription σ nc.2)
                  ∈ [ (400, "Bad Request");
                      (422, "Unprocessable Content");
                      (500, "Internal Server Error") ])
           catalog.
Proof.
  intros σ catalog. split; [reflexivity|].
  assert (∀ c, status.GetDescription σ c
               = match status.statusDescriptions !! c with
                 | Some desc => desc
                 | None => "Unknown Status Code"
                 end) as Hdesc.
  { intros c. unfold status.GetDescription, σ. by rewrite run_registry. }
  assert (status.GetDescription σ 400 = "Bad Request") as H400
    by (by rewrite Hdesc).
  assert (status.GetDescription σ 422 = "Unprocessable Content") as H422
    by (by rewrite Hdesc).
  assert (status.GetDescription σ 500 = "Internal Server Error") as H500
    by (by rewrite Hdesc).
  unfold catalog.
  repeat (apply Forall_cons; split;
          [cbn beta; cbn [snd]; rewrite ?H400, ?H422, ?H500;
           by repeat first [apply list_elem_of_here | apply list_elem_of_further]|]).
  apply Forall_nil_2.
Qed.

(** The checks of [TestStatusGetValue] and [TestNewStatus]. *)
Example TestStatusGetValue :
  status.Status_GetValue status.SUCCESS = "success"
  ∧ status.Status_GetValue status.ERROR = "error"
  ∧ status.Status_GetValue (status.NewStatus "processing") = "processing"
  ∧ status.NewStatus "processing" ≠ status.SUCCESS
  ∧ status.NewStatus "processing" ≠ status.ERROR.
Proof. repeat split; discriminate. Qed.

End variants.
